(** * quantum-circuit-drawer: gates, circuit and renderer

    A shallow embedding of the TypeScript sources ([styles.ts], [gates/*.ts],
    [Circuit.ts], [Renderer.ts]) and the properties of the layout they compute.

    JavaScript numbers are IEEE 754 binary64 values; they are embedded as
    Rocq's primitive floats, so [*], [+], [-], [/], [<] and [===] on numbers
    are the kernel's binary64 operations, and style values, qubit indices and
    angles range over every number, [NaN] and the infinities included.
    Most results hold by computing with these operations; what is stated of
    [NaN] and of the integers below [2^53] for an arbitrary operand rests on
    the Standard Library's specification of them ([FloatAxioms]).  Two
    numbers are integers by construction and are kept as such: the length of
    an array and the index [forEach] passes.  A third is taken to be one: the
    qubit count of a circuit, an integer of any sign, so that the loop over
    the qubit lines is a bounded iteration.

    A constructor that can [throw] returns a [result].  The methods of
    [Renderer] mutate [this.svg]; they are functions from the renderer before
    the call to the renderer after it.  The svg.js surface is a record of its
    size and of the elements added to it, in order, each with what the calls
    chained on it have set. *)

From Stdlib Require Import ZArith NArith List String Ascii Bool Lia.
From Stdlib Require Import DecimalString.
From Stdlib Require Import Floats.PrimFloat Floats.SpecFloat Floats.FloatOps.
From Stdlib Require Import Floats.FloatAxioms.
Import ListNotations.

Local Open Scope string_scope.

(* ================================================================== *)
(** * JavaScript values used by the sources *)
(* ================================================================== *)

(** The JavaScript type [number]. *)
Abbreviation number := float.

(** An integer as a [number]: the nearest binary64 value (the integer itself
    below [2^53]). *)
Definition num_of_Z (z : Z) : number :=
  SF2Prim (binary_normalize prec emax z 0%Z false).

(** An array index, an array length or a loop counter as a [number]. *)
Definition num_of_nat (n : nat) : number := num_of_Z (Z.of_nat n).

(** [ToNumber] of the result of an indexed read: [undefined] becomes [NaN]. *)
Definition ToNumber (v : option number) : number :=
  match v with
  | Some x => x
  | None => nan
  end.

(** [Math.PI]: the binary64 value nearest to pi. *)
Definition Math_PI : number := 0x1.921fb54442d18p+1%float.

(** [throw new Error(msg)] against a normal return. *)
Inductive result (A : Type) : Type :=
| Ok (a : A)
| Throw (message : string).
Arguments Ok {A} a.
Arguments Throw {A} message.

Definition is_ok {A : Type} (r : result A) : bool :=
  match r with
  | Ok _ => true
  | Throw _ => false
  end.

(** ** Decimal digits *)

(** The decimal representation of a natural number, no leading zeroes
    (["0"] for zero). *)
Definition decimal (n : N) : string := NilZero.string_of_uint (N.to_uint n).

Fixpoint repeat_string (s : string) (k : nat) : string :=
  match k with
  | O => ""
  | S k' => s ++ repeat_string s k'
  end.

(** ** Number::toString for the values [toFixed] hands over to it

    [toFixed] calls [ToString] on a number only when the number is not finite
    or has magnitude at least [10^21].  Such a finite value [m * 2^e] is an
    integer; ECMA-262 prints its shortest decimal digits [s] (k digits) with
    [s * 10^(n-k)] rounding back to the value, in exponent form. *)

(** Does the integer [c] round (to nearest, ties to even) to [m * 2^e]?
    Only used with [e >= 2]. *)
Definition rounds_to (m : positive) (e : Z) (c : Z) : bool :=
  let v := (Zpos m * 2 ^ e)%Z in
  let up := (2 ^ (e - 1))%Z in
  let down := if Pos.eqb m (2 ^ 52)%positive then (2 ^ (e - 2))%Z else (2 ^ (e - 1))%Z in
  let even := Z.even (Zpos m) in
  ((if even then (v - down <=? c)%Z else (v - down <? c)%Z) &&
   (if even then (c <=? v + up)%Z else (c <? v + up)%Z))%bool.

(** Number of decimal digits of a positive integer, found from below. *)
Fixpoint count_digits (fuel : nat) (v : Z) (n : nat) : nat :=
  match fuel with
  | O => n
  | S fuel' => if (v <? 10 ^ Z.of_nat n)%Z then n else count_digits fuel' v (S n)
  end.

(** The candidates [(s, n)] with [k] digits around [v]. *)
Definition candidates (m : positive) (e : Z) (nd k : nat) : list (Z * nat) :=
  let v := (Zpos m * 2 ^ e)%Z in
  let try (n : nat) : list (Z * nat) :=
    let p := (10 ^ (Z.of_nat n - Z.of_nat k))%Z in
    filter (fun sn : Z * nat =>
              let s := fst sn in
              ((10 ^ (Z.of_nat k - 1) <=? s)%Z && (s <? 10 ^ Z.of_nat k)%Z &&
               rounds_to m e (s * p))%bool)
           [((v / p)%Z, n); ((v / p + 1)%Z, n)] in
  try nd ++ try (S nd).

(** The candidate nearest to [v]. *)
Definition nearest (v : Z) (k : nat) (cs : list (Z * nat)) : option (Z * nat) :=
  let dist (sn : Z * nat) : Z :=
    Z.abs (fst sn * 10 ^ (Z.of_nat (snd sn) - Z.of_nat k) - v) in
  fold_left (fun best sn =>
               match best with
               | None => Some sn
               | Some b => if (dist sn <? dist b)%Z then Some sn else Some b
               end) cs None.

Fixpoint shortest (m : positive) (e : Z) (nd : nat) (fuel k : nat) : Z * nat * nat :=
  match nearest (Zpos m * 2 ^ e) k (candidates m e nd k) with
  | Some (s, n) => (s, n, k)
  | None =>
      match fuel with
      | O => (Zpos m * 2 ^ e, nd, nd)%Z
      | S fuel' => shortest m e nd fuel' (S k)
      end
  end.

Definition string_tail (s : string) : string :=
  match s with
  | EmptyString => ""
  | String _ t => t
  end.

Definition string_head (s : string) : string :=
  match s with
  | EmptyString => ""
  | String c _ => String c ""
  end.

(** [Number::toString] of [m * 2^e >= 10^21]. *)
Definition Number_toString_large (m : positive) (e : Z) : string :=
  let v := (Zpos m * 2 ^ e)%Z in
  let nd := count_digits 400 v 1 in
  let '(s, n, k) := shortest m e nd 20 1 in
  let digits := decimal (Z.to_N s) in
  let expo := "e+" ++ decimal (N.of_nat (n - 1)) in
  match k with
  | 1%nat => digits ++ expo
  | _ => string_head digits ++ "." ++ string_tail digits ++ expo
  end.

(** ** Number.prototype.toFixed

    ECMA-262, 21.1.3.3, for [0 <= fractionDigits <= 100] (a [RangeError]
    outside; the sources only call [toFixed(1)]).  The number is taken at its
    exact value [m * 2^e]: [n] is the integer nearest to [x * 10^f], the
    larger one on a tie. *)

(** The digits of [n] with a point before the last [f] of them, padded with
    zeroes on the left to [f + 1] digits. *)
Definition fixed_digits (n : N) (f : nat) : string :=
  let m := decimal n in
  match f with
  | O => m
  | _ =>
      let k := String.length m in
      let m := if (k <=? f)%nat then repeat_string "0" (f + 1 - k) ++ m else m in
      let k := String.length m in
      substring 0 (k - f) m ++ "." ++ substring (k - f) f m
  end.

Definition Number_toFixed (x : number) (fractionDigits : nat) : string :=
  match Prim2SF x with
  | S754_nan => "NaN"
  | S754_infinity false => "Infinity"
  | S754_infinity true => "-Infinity"
  | S754_zero _ => fixed_digits 0 fractionDigits
  | S754_finite sign m e =>
      let s := if sign then "-" else "" in
      let scaled := (Zpos m * 10 ^ Z.of_nat fractionDigits)%Z in
      if (0 <=? e)%Z && (10 ^ 21 <=? Zpos m * 2 ^ e)%Z
      then s ++ Number_toString_large m e
      else
        let n := if (0 <=? e)%Z then (scaled * 2 ^ e)%Z
                 else ((2 * scaled + 2 ^ (- e)) / (2 * 2 ^ (- e)))%Z in
        s ++ fixed_digits (Z.to_N n) fractionDigits
  end.

(* ================================================================== *)
(** * styles.ts *)
(* ================================================================== *)

Record StyleConfig : Type := {
  qubitSpacing : number;
  gateSpacing : number;
  gateWidth : number;
  gateHeight : number;
  lineColor : string;
  lineWidth : number;
  gateFill : string;
  gateStroke : string;
  gateStrokeWidth : number;
  fontSize : number;
  fontFamily : string;
  fontColor : string
}.

Definition DefaultStyleConfig : StyleConfig := {|
  qubitSpacing := 50;
  gateSpacing := 70;
  gateWidth := 40;
  gateHeight := 40;
  lineColor := "#000";
  lineWidth := 2;
  gateFill := "#fff";
  gateStroke := "#000";
  gateStrokeWidth := 2;
  fontSize := 14;
  fontFamily := "Arial, sans-serif";
  fontColor := "#000"
|}.

(** [Partial<StyleConfig>]: every property may be absent. *)
Record PartialStyleConfig : Type := {
  qubitSpacing' : option number;
  gateSpacing' : option number;
  gateWidth' : option number;
  gateHeight' : option number;
  lineColor' : option string;
  lineWidth' : option number;
  gateFill' : option string;
  gateStroke' : option string;
  gateStrokeWidth' : option number;
  fontSize' : option number;
  fontFamily' : option string;
  fontColor' : option string
}.

Definition no_overrides : PartialStyleConfig :=
  Build_PartialStyleConfig None None None None None None None None None None None None.

Definition override {A : Type} (base : A) (o : option A) : A :=
  match o with
  | Some v => v
  | None => base
  end.

(** The object spread [{ ...base, ...styles }]: a property present in
    [styles] wins. *)
Definition spread (base : StyleConfig) (styles : PartialStyleConfig) : StyleConfig := {|
  qubitSpacing := override (qubitSpacing base) (qubitSpacing' styles);
  gateSpacing := override (gateSpacing base) (gateSpacing' styles);
  gateWidth := override (gateWidth base) (gateWidth' styles);
  gateHeight := override (gateHeight base) (gateHeight' styles);
  lineColor := override (lineColor base) (lineColor' styles);
  lineWidth := override (lineWidth base) (lineWidth' styles);
  gateFill := override (gateFill base) (gateFill' styles);
  gateStroke := override (gateStroke base) (gateStroke' styles);
  gateStrokeWidth := override (gateStrokeWidth base) (gateStrokeWidth' styles);
  fontSize := override (fontSize base) (fontSize' styles);
  fontFamily := override (fontFamily base) (fontFamily' styles);
  fontColor := override (fontColor base) (fontColor' styles)
|}.

(* ================================================================== *)
(** * gates/IGate.ts and the gate classes *)
(* ================================================================== *)

Record IGate : Type := {
  name : string;
  qubits : list number
}.

(** gates/HadamardGate.ts *)
Definition new_HadamardGate (qubit : number) : result IGate :=
  if (qubit <? 0)%float
  then Throw "Qubit index must be a non-negative integer."
  else Ok {| name := "H"; qubits := [qubit] |}.

(** gates/PauliXGate.ts *)
Definition new_PauliXGate (qubit : number) : result IGate :=
  if (qubit <? 0)%float
  then Throw "Qubit index must be a non-negative integer."
  else Ok {| name := "X"; qubits := [qubit] |}.

(** gates/PauliYGate.ts *)
Definition new_PauliYGate (qubit : number) : result IGate :=
  if (qubit <? 0)%float
  then Throw "Qubit index must be a non-negative integer."
  else Ok {| name := "Y"; qubits := [qubit] |}.

(** gates/PauliZGate.ts *)
Definition new_PauliZGate (qubit : number) : result IGate :=
  if (qubit <? 0)%float
  then Throw "Qubit index must be a non-negative integer."
  else Ok {| name := "Z"; qubits := [qubit] |}.

(** gates/CNOTGate.ts: [===] on numbers is the IEEE comparison. *)
Definition new_CNOTGate (controlQubit targetQubit : number) : result IGate :=
  if (controlQubit =? targetQubit)%float
  then Throw "Control qubit and target qubit must be different."
  else Ok {| name := "CNOT"; qubits := [controlQubit; targetQubit] |}.

(** gates/RotationGate.ts: an [IGate] with one more field.  The axis is
    typed ["X" | "Y" | "Z"] but checked at run time, so it is a string. *)
Record RotationGate : Type := {
  as_IGate :> IGate;
  angle : number
}.

Definition includes (l : list string) (s : string) : bool :=
  existsb (String.eqb s) l.

Definition new_RotationGate (axis : string) (qubit : number) (angle : number)
  : result RotationGate :=
  if (qubit <? 0)%float
  then Throw "Qubit index must be a non-negative integer."
  else if negb (includes ["X"; "Y"; "Z"] axis)
  then Throw "Axis must be 'X', 'Y', or 'Z'."
  else
    let angleDegrees := Number_toFixed (angle * (180 / Math_PI))%float 1 in
    Ok {| as_IGate := {| name := "R" ++ axis ++ "(" ++ angleDegrees ++ "°)";
                         qubits := [qubit] |};
          angle := angle |}.

(* ================================================================== *)
(** * Circuit.ts *)
(* ================================================================== *)

(** [numQubits] is an integer, of any sign: the constructor stores what it
    is given. *)
Record Circuit : Type := {
  numQubits : Z;
  gates : list IGate
}.

Definition new_Circuit (numQubits : Z) : result Circuit :=
  Ok {| numQubits := numQubits; gates := [] |}.

(** [this.gates.push(gate)] *)
Definition addGate (this : Circuit) (gate : IGate) : Circuit :=
  {| numQubits := numQubits this; gates := gates this ++ [gate] |}.

(* ================================================================== *)
(** * The svg.js surface *)
(* ================================================================== *)

(** An argument of [size]: a number of pixels or a string such as ["100%"]. *)
Inductive Length : Type :=
| Pixels (n : number)
| Css (s : string).

Inductive Shape : Type :=
| Line (x1 y1 x2 y2 : number)
| Rect (width height : number)
| Circle (diameter : number)
| Text (content : string).

Record Stroke : Type := {
  stroke_width : number;
  stroke_color : string
}.

Record Font : Type := {
  font_size : number;
  font_family : string;
  font_fill : string
}.

(** An element with what the chained calls set on it; [None] where a call
    was not made.  [moved] holds the arguments of [move]; for a rectangle and
    for a circle they are where the upper-left corner of its bounding box
    goes. *)
Record Element : Type := {
  shape : Shape;
  moved : option (number * number);
  filled : option string;
  stroked : option Stroke;
  fonted : option Font;
  attrs : list (string * string)
}.

Definition element (sh : Shape) : Element :=
  {| shape := sh; moved := None; filled := None; stroked := None;
     fonted := None; attrs := [] |}.

Definition move (x y : number) (e : Element) : Element :=
  {| shape := shape e; moved := Some (x, y); filled := filled e;
     stroked := stroked e; fonted := fonted e; attrs := attrs e |}.

Definition fill (color : string) (e : Element) : Element :=
  {| shape := shape e; moved := moved e; filled := Some color;
     stroked := stroked e; fonted := fonted e; attrs := attrs e |}.

Definition stroke (s : Stroke) (e : Element) : Element :=
  {| shape := shape e; moved := moved e; filled := filled e;
     stroked := Some s; fonted := fonted e; attrs := attrs e |}.

Definition font (f : Font) (e : Element) : Element :=
  {| shape := shape e; moved := moved e; filled := filled e;
     stroked := stroked e; fonted := Some f; attrs := attrs e |}.

Definition attr (kvs : list (string * string)) (e : Element) : Element :=
  {| shape := shape e; moved := moved e; filled := filled e;
     stroked := stroked e; fonted := fonted e; attrs := attrs e ++ kvs |}.

(** The root [<svg>]: where it is attached, its size, and its children in
    the order they were added. *)
Record Svg : Type := {
  container : string;
  width : Length;
  height : Length;
  children : list Element
}.

(** [SVG().addTo(selector)] *)
Definition SVG_addTo (selector : string) : Svg :=
  {| container := selector; width := Css "100%"; height := Css "100%";
     children := [] |}.

(** [svg.size(w, h)] *)
Definition size (w h : Length) (svg : Svg) : Svg :=
  {| container := container svg; width := w; height := h;
     children := children svg |}.

(** [svg.line(..)], [svg.rect(..)], [svg.circle(..)] and [svg.text(..)] add
    the new element to the root; the calls chained on it then set its
    attributes.  [put e] adds the element as the chain leaves it. *)
Definition put (e : Element) (svg : Svg) : Svg :=
  {| container := container svg; width := width svg; height := height svg;
     children := children svg ++ [e] |}.

(* ================================================================== *)
(** * Loops *)
(* ================================================================== *)

Section Loops.
Context {A St : Type}.

(** [for (let i = ..; ..; i++) body], [count] iterations from counter [i]. *)
Fixpoint for_from (count : nat) (i : nat) (body : nat -> St -> St) (s : St) : St :=
  match count with
  | O => s
  | S count' => for_from count' (S i) body (body i s)
  end.

(** [for (let i = 0; i < bound; i++) body] for an integer [bound]: no
    iteration when [bound <= 0]. *)
Definition for_below (bound : Z) (body : nat -> St -> St) (s : St) : St :=
  for_from (Z.to_nat bound) 0 body s.

Fixpoint forEach_from (l : list A) (index : nat)
         (callback : A -> nat -> St -> St) (s : St) : St :=
  match l with
  | [] => s
  | a :: l' => forEach_from l' (S index) callback (callback a index s)
  end.

(** [l.forEach((a, index) => callback)] *)
Definition forEach (l : list A) (callback : A -> nat -> St -> St) (s : St) : St :=
  forEach_from l 0 callback s.

End Loops.

(* ================================================================== *)
(** * Renderer.ts *)
(* ================================================================== *)

Record Renderer : Type := {
  circuit : Circuit;
  svg : Svg;
  styles : StyleConfig
}.

(** [styles] is optional: [None] is the argument left out. *)
Definition new_Renderer (circuit : Circuit) (containerId : string)
           (styles : option PartialStyleConfig) : Renderer :=
  {| circuit := circuit;
     svg := size (Css "100%") (Css "100%") (SVG_addTo ("#" ++ containerId));
     styles := spread DefaultStyleConfig (override no_overrides styles) |}.

(** The methods draw on [this.svg]: [on_svg f this] is [this] after that. *)
Definition on_svg (f : Svg -> Svg) (this : Renderer) : Renderer :=
  {| circuit := circuit this; svg := f (svg this); styles := styles this |}.

Local Open Scope float_scope.

Definition drawCNOTGate (gate : IGate) (x : number) (this : Renderer) : Renderer :=
  let qubitSpacing := qubitSpacing (styles this) in
  let gateStroke := gateStroke (styles this) in
  let gateStrokeWidth := gateStrokeWidth (styles this) in
  let lineColor := lineColor (styles this) in
  let lineWidth := lineWidth (styles this) in
  let controlQubit := ToNumber (nth_error (qubits gate) 0) in
  let targetQubit := ToNumber (nth_error (qubits gate) 1) in
  let y1 := qubitSpacing * (controlQubit + 1) in
  let y2 := qubitSpacing * (targetQubit + 1) in
  (* the control dot at the control qubit line *)
  let this := on_svg (put (fill gateStroke (move (x - 4) (y1 - 4) (element (Circle 8))))) this in
  (* the vertical line connecting the control and target qubits *)
  let this := on_svg (put (stroke {| stroke_width := lineWidth; stroke_color := lineColor |}
                                  (element (Line x y1 x y2)))) this in
  (* the target qubit symbol (a circle with a plus sign inside) *)
  let gateSize := 20 in
  let this := on_svg (put (stroke {| stroke_width := gateStrokeWidth; stroke_color := gateStroke |}
                            (fill "#fff"
                              (move (x - gateSize / 2) (y2 - gateSize / 2)
                                (element (Circle gateSize)))))) this in
  (* the horizontal line of the plus sign *)
  let this := on_svg (put (stroke {| stroke_width := gateStrokeWidth; stroke_color := gateStroke |}
                            (element (Line (x - gateSize / 4) y2 (x + gateSize / 4) y2)))) this in
  (* the vertical line of the plus sign *)
  on_svg (put (stroke {| stroke_width := gateStrokeWidth; stroke_color := gateStroke |}
                (element (Line x (y2 - gateSize / 4) x (y2 + gateSize / 4))))) this.

Definition drawRotationGate (gate : IGate) (x : number) (this : Renderer) : Renderer :=
  let qubitSpacing := qubitSpacing (styles this) in
  let gateWidth := gateWidth (styles this) in
  let gateHeight := gateHeight (styles this) in
  let gateFill := gateFill (styles this) in
  let gateStroke := gateStroke (styles this) in
  let gateStrokeWidth := gateStrokeWidth (styles this) in
  let fontSize := fontSize (styles this) in
  let fontFamily := fontFamily (styles this) in
  let fontColor := fontColor (styles this) in
  forEach (qubits gate) (fun qubit _ this =>
    let y := qubitSpacing * (qubit + 1) - gateHeight / 2 in
    (* the gate rectangle *)
    let this := on_svg (put (stroke {| stroke_width := gateStrokeWidth; stroke_color := gateStroke |}
                              (fill gateFill
                                (move (x - gateWidth / 2) y
                                  (element (Rect gateWidth gateHeight)))))) this in
    (* the gate label with rotation information *)
    on_svg (put (attr [("text-anchor", "middle"); ("dominant-baseline", "middle")]
                  (font {| font_size := fontSize - 2; font_family := fontFamily;
                           font_fill := fontColor |}
                    (move x (y + gateHeight / 2)
                      (element (Text (name gate))))))) this) this.

(** The last branch of the dispatch in [draw] (written in place there): a
    rectangle and a label on each qubit of the gate. *)
Definition draw_single_qubit_gate (gate : IGate) (x : number) (this : Renderer) : Renderer :=
  let qubitSpacing := qubitSpacing (styles this) in
  let gateWidth := gateWidth (styles this) in
  let gateHeight := gateHeight (styles this) in
  let gateFill := gateFill (styles this) in
  let gateStroke := gateStroke (styles this) in
  let gateStrokeWidth := gateStrokeWidth (styles this) in
  let fontSize := fontSize (styles this) in
  let fontFamily := fontFamily (styles this) in
  let fontColor := fontColor (styles this) in
  forEach (qubits gate) (fun qubit _ this =>
    let y := qubitSpacing * (qubit + 1) - gateHeight / 2 in
    (* the gate rectangle *)
    let this := on_svg (put (stroke {| stroke_width := gateStrokeWidth; stroke_color := gateStroke |}
                              (fill gateFill
                                (move (x - gateWidth / 2) y
                                  (element (Rect gateWidth gateHeight)))))) this in
    (* the gate label (e.g., H, X, Y, Z) *)
    on_svg (put (attr [("text-anchor", "middle"); ("dominant-baseline", "middle")]
                  (font {| font_size := fontSize; font_family := fontFamily;
                           font_fill := fontColor |}
                    (move x (y + gateHeight / 2)
                      (element (Text (name gate))))))) this) this.

(** The dispatch on the gate's name in the callback of [gates.forEach]. *)
Definition draw_gate (gate : IGate) (x : number) (this : Renderer) : Renderer :=
  if (name gate =? "CNOT")%string then
    drawCNOTGate gate x this
  else if prefix "R" (name gate) then
    drawRotationGate gate x this
  else
    draw_single_qubit_gate gate x this.

Definition draw (this : Renderer) : Renderer :=
  let numQubits := numQubits (circuit this) in
  let gates := gates (circuit this) in
  let qubitSpacing := qubitSpacing (styles this) in
  let gateSpacing := gateSpacing (styles this) in
  let lineColor := lineColor (styles this) in
  let lineWidth := lineWidth (styles this) in
  let totalWidth := gateSpacing * (num_of_nat (List.length gates) + 1) in
  (* adjust the SVG canvas size based on the circuit dimensions *)
  let this := on_svg (size (Pixels (totalWidth + gateSpacing))
                           (Pixels (qubitSpacing * (num_of_Z numQubits + 1)))) this in
  (* horizontal lines representing the qubits *)
  let this := for_below numQubits (fun i this =>
    let y := qubitSpacing * (num_of_nat i + 1) in
    on_svg (put (stroke {| stroke_width := lineWidth; stroke_color := lineColor |}
                  (element (Line 0 y totalWidth y)))) this) this in
  (* the gates on the qubit lines *)
  forEach gates (fun gate index this =>
    let x := gateSpacing * (num_of_nat index + 1) in
    draw_gate gate x this) this.

Local Close Scope float_scope.

(* ================================================================== *)
(** * Notions used to state the properties *)
(* ================================================================== *)

(** The six gate classes of the package. *)
Inductive GateKind : Type :=
| Hadamard | PauliX | PauliY | PauliZ | CNOT | Rotation.

(** [built k gate]: [gate] is an object some call of the constructor of
    class [k] returned. *)
Inductive built : GateKind -> IGate -> Prop :=
| built_Hadamard qubit gate :
    new_HadamardGate qubit = Ok gate -> built Hadamard gate
| built_PauliX qubit gate :
    new_PauliXGate qubit = Ok gate -> built PauliX gate
| built_PauliY qubit gate :
    new_PauliYGate qubit = Ok gate -> built PauliY gate
| built_PauliZ qubit gate :
    new_PauliZGate qubit = Ok gate -> built PauliZ gate
| built_CNOT controlQubit targetQubit gate :
    new_CNOTGate controlQubit targetQubit = Ok gate -> built CNOT gate
| built_Rotation axis qubit angle gate :
    new_RotationGate axis qubit angle = Ok gate -> built Rotation (as_IGate gate).

(** The three ways [draw] draws a gate. *)
Inductive Strategy : Type :=
| SingleBox | RotationBox | ControlTarget.

(** The strategy each class is meant to be drawn by. *)
Definition strategy_of_kind (k : GateKind) : Strategy :=
  match k with
  | CNOT => ControlTarget
  | Rotation => RotationBox
  | Hadamard | PauliX | PauliY | PauliZ => SingleBox
  end.

(** The number of qubits each class acts on. *)
Definition arity (k : GateKind) : nat :=
  match k with
  | CNOT => 2
  | Hadamard | PauliX | PauliY | PauliZ | Rotation => 1
  end.

(** The branch the tests on the name in [draw_gate] take. *)
Definition dispatch (gate : IGate) : Strategy :=
  if (name gate =? "CNOT")%string then ControlTarget
  else if prefix "R" (name gate) then RotationBox
  else SingleBox.

Definition run (s : Strategy) : IGate -> number -> Renderer -> Renderer :=
  match s with
  | ControlTarget => drawCNOTGate
  | RotationBox => drawRotationGate
  | SingleBox => draw_single_qubit_gate
  end.

(** [this] with the elements [l] added to its surface, in order. *)
Definition add_elements (l : list Element) (this : Renderer) : Renderer :=
  on_svg (fun svg =>
            {| container := container svg; width := width svg;
               height := height svg; children := children svg ++ l |}) this.

(** What a method draws on an empty surface under the styles [st]. *)
Definition blank (st : StyleConfig) : Renderer :=
  {| circuit := {| numQubits := 0; gates := [] |};
     svg := SVG_addTo "";
     styles := st |}.

Definition elements_of (f : Renderer -> Renderer) (st : StyleConfig) : list Element :=
  children (svg (f (blank st))).

(** [map] with the position of each element, counted from [i]. *)
Fixpoint mapi_from {A B : Type} (i : nat) (f : nat -> A -> B) (l : list A) : list B :=
  match l with
  | [] => []
  | a :: l' => f i a :: mapi_from (S i) f l'
  end.

Definition mapi {A B : Type} (f : nat -> A -> B) (l : list A) : list B :=
  mapi_from 0 f l.

(** A circle of diameter [d] centred at [(cx, cy)]: svg.js moves a circle by
    the upper-left corner of its bounding box. *)
Definition circle_at (d cx cy : number) : Element :=
  move (cx - d / 2)%float (cy - d / 2)%float (element (Circle d)).

(** A rectangle [w] by [h] whose centre is at [(cx, cy)]. *)
Definition rect_at (w h cx cy : number) : Element :=
  move (cx - w / 2)%float (cy - h / 2)%float (element (Rect w h)).

Definition line_stroke (st : StyleConfig) : Stroke :=
  {| stroke_width := lineWidth st; stroke_color := lineColor st |}.

Definition gate_stroke (st : StyleConfig) : Stroke :=
  {| stroke_width := gateStrokeWidth st; stroke_color := gateStroke st |}.

(** The glyph of a control-target gate in column [x], control on the line at
    [y1], target on the line at [y2]: control disc, connector, target circle
    and the two strokes of the plus sign. *)
Definition control_target_glyph (st : StyleConfig) (x y1 y2 : number) : list Element :=
  [ fill (gateStroke st) (circle_at 8 x y1);
    stroke (line_stroke st) (element (Line x y1 x y2));
    stroke (gate_stroke st) (fill "#fff" (circle_at 20 x y2));
    stroke (gate_stroke st) (element (Line (x - 5)%float y2 (x + 5)%float y2));
    stroke (gate_stroke st) (element (Line x (y2 - 5)%float x (y2 + 5)%float)) ].

(** The label of a box whose upper edge is at [top]: moved to column [x],
    half the gate height below that edge, and anchored in the middle. *)
Definition box_label (st : StyleConfig) (size : number) (label : string)
           (x top : number) : Element :=
  attr [("text-anchor", "middle"); ("dominant-baseline", "middle")]
       (font {| font_size := size; font_family := fontFamily st;
                font_fill := fontColor st |}
             (move x (top + gateHeight st / 2)%float (element (Text label)))).

(** A labelled box in column [x] centred on the line at [y]. *)
Definition labelled_box (st : StyleConfig) (size : number) (label : string)
           (x y : number) : list Element :=
  [ stroke (gate_stroke st)
           (fill (gateFill st) (rect_at (gateWidth st) (gateHeight st) x y));
    box_label st size label x (y - gateHeight st / 2)%float ].

(** The line of qubit [i]: its height on the canvas. *)
Definition baseline_y (st : StyleConfig) (qubit : number) : number :=
  (qubitSpacing st * (qubit + 1))%float.

(** The length of the qubit lines: [totalWidth] in [draw]. *)
Definition total_width (this : Renderer) : number :=
  (gateSpacing (styles this) * (num_of_nat (List.length (gates (circuit this))) + 1))%float.

(** The line [draw] draws for qubit [i]. *)
Definition baseline (this : Renderer) (i : nat) : Element :=
  stroke (line_stroke (styles this))
         (element (Line 0%float (baseline_y (styles this) (num_of_nat i))
                        (total_width this) (baseline_y (styles this) (num_of_nat i)))).

(** The horizontal offset of column [index + 1]: [x] in [draw]. *)
Definition gate_x (st : StyleConfig) (index : nat) : number :=
  (gateSpacing st * (num_of_nat index + 1))%float.

(** A decimal digit. *)
Definition is_digit (c : ascii) : bool :=
  ((48 <=? nat_of_ascii c)%nat && (nat_of_ascii c <=? 57)%nat)%bool.

Fixpoint all_digits (s : string) : bool :=
  match s with
  | EmptyString => true
  | String c s' => (is_digit c && all_digits s')%bool
  end.

(** A numeral with one decimal place: an optional minus sign, one digit or
    more, a point, and exactly one digit. *)
Definition one_decimal_place (s : string) : Prop :=
  exists sign whole d,
    s = (sign ++ whole ++ "." ++ String d "")%string /\
    (sign = "" \/ sign = "-") /\
    whole <> "" /\ all_digits whole = true /\ is_digit d = true.

(** [x] is finite and of magnitude below [10^21]: the numbers [toFixed]
    prints in fixed notation. *)
Definition fixed_range (x : number) : bool :=
  match Prim2SF x with
  | S754_zero _ => true
  | S754_finite _ m e => negb ((0 <=? e)%Z && (10 ^ 21 <=? Zpos m * 2 ^ e)%Z)
  | S754_infinity _ | S754_nan => false
  end.

(** Proof step: replace a built gate by the record its constructor returned,
    class by class; [inv] is the inversion lemma for [built]. *)
Ltac open_built inv Hb k :=
  apply inv in Hb; destruct k;
  repeat match type of Hb with
         | exists _, _ => destruct Hb as [? Hb]
         end;
  match type of Hb with
  | ?g = _ => subst g
  end.

(** The README's example: Hadamard on qubit 0, then CNOT from 0 to 1. *)
Definition example_circuit : Circuit :=
  addGate (addGate {| numQubits := 2; gates := [] |}
                   {| name := "H"; qubits := [0%float] |})
          {| name := "CNOT"; qubits := [0%float; 1%float] |}.

(** ** Notions for the columns *)






(** The last two characters of a string. *)
Fixpoint last_two (s : string) : option (ascii * ascii) :=
  match s with
  | String a (String b EmptyString) => Some (a, b)
  | String _ t => last_two t
  | EmptyString => None
  end.

(** ** Notions for the further properties *)

(** What one call of [draw] adds to the surface of [this]. *)
Definition drawing (this : Renderer) : list Element :=
  skipn (List.length (children (svg this))) (children (svg (draw this))).

(** The number of elements [draw] adds for one gate. *)
Definition elements_per_gate (gate : IGate) : nat :=
  match dispatch gate with
  | ControlTarget => 5
  | RotationBox | SingleBox => 2 * List.length (qubits gate)
  end.

(** [this] with another qubit count, all else the same. *)
Definition with_numQubits (n : Z) (this : Renderer) : Renderer :=
  {| circuit := {| numQubits := n; gates := gates (circuit this) |};
     svg := svg this;
     styles := styles this |}.

(** [st] with another font size, all else the same. *)
Definition with_fontSize (size : number) (st : StyleConfig) : StyleConfig :=
  {| qubitSpacing := qubitSpacing st; gateSpacing := gateSpacing st;
     gateWidth := gateWidth st; gateHeight := gateHeight st;
     lineColor := lineColor st; lineWidth := lineWidth st;
     gateFill := gateFill st; gateStroke := gateStroke st;
     gateStrokeWidth := gateStrokeWidth st; fontSize := size;
     fontFamily := fontFamily st; fontColor := fontColor st |}.

(** [addGate] called on each gate of [gs], in order. *)
Definition addGates (this : Circuit) (gs : list IGate) : Circuit :=
  fold_left addGate gs this.

(** A gate object outside the six classes: two qubits and its own name. *)
Definition swap_gate : IGate :=
  {| name := "SWAP"; qubits := [0%float; 1%float] |}.

(* ================================================================== *)
(** * The surface only grows *)
(* ================================================================== *)

Local Open Scope list_scope.

Lemma add_elements_nil (this : Renderer) : add_elements [] this = this.
Proof.
  destruct this as [c [k w h ch] st].
  unfold add_elements, on_svg; simpl.
  now rewrite app_nil_r.
Qed.

Lemma add_elements_app (l1 l2 : list Element) (this : Renderer) :
  add_elements l2 (add_elements l1 this) = add_elements (l1 ++ l2) this.
Proof.
  unfold add_elements, on_svg; simpl.
  now rewrite app_assoc.
Qed.

Lemma put_add_elements (e : Element) (l : list Element) (this : Renderer) :
  on_svg (put e) (add_elements l this) = add_elements (l ++ [e]) this.
Proof.
  unfold add_elements, on_svg, put; simpl.
  now rewrite app_assoc.
Qed.

Lemma put_is_add (e : Element) (this : Renderer) :
  on_svg (put e) this = add_elements [e] this.
Proof. reflexivity. Qed.

(** A method that adds a list determined by the styles adds what it draws
    on an empty surface. *)
Lemma elements_of_adds (f : Renderer -> Renderer) (F : StyleConfig -> list Element) :
  (forall this, f this = add_elements (F (styles this)) this) ->
  forall st, elements_of f st = F st.
Proof.
  intros Hf st. unfold elements_of. now rewrite Hf.
Qed.

Section LoopLemmas.
Context {A : Type}.

Lemma forEach_from_adds (callback : A -> nat -> Renderer -> Renderer)
      (F : A -> nat -> StyleConfig -> list Element) :
  (forall a i this, callback a i this = add_elements (F a i (styles this)) this) ->
  forall l i this,
    forEach_from l i callback this =
    add_elements (List.concat (mapi_from i (fun j a => F a j (styles this)) l)) this.
Proof.
  intros Hcb l. induction l as [|a l IH]; intros i this; simpl.
  - now rewrite add_elements_nil.
  - rewrite Hcb, IH, add_elements_app. reflexivity.
Qed.

Lemma for_from_adds (body : nat -> Renderer -> Renderer)
      (F : nat -> StyleConfig -> list Element) :
  (forall i this, body i this = add_elements (F i (styles this)) this) ->
  forall count i this,
    for_from count i body this =
    add_elements (List.concat (map (fun j => F j (styles this)) (seq i count))) this.
Proof.
  intros Hb count. induction count as [|count IH]; intros i this; simpl.
  - now rewrite add_elements_nil.
  - rewrite Hb, IH, add_elements_app. reflexivity.
Qed.

End LoopLemmas.

(* ================================================================== *)
(** * What each method draws *)
(* ================================================================== *)

Lemma drawCNOTGate_adds (gate : IGate) (x : number) (this : Renderer) :
  drawCNOTGate gate x this =
  add_elements
    (control_target_glyph (styles this) x
       (baseline_y (styles this) (ToNumber (nth_error (qubits gate) 0)))
       (baseline_y (styles this) (ToNumber (nth_error (qubits gate) 1))))
    this.
Proof.
  unfold drawCNOTGate; cbv zeta.
  rewrite (put_is_add _ this).
  repeat rewrite put_add_elements.
  reflexivity.
Qed.

Lemma box_adds (st : StyleConfig) (size : number) (label : string)
      (x qubit : number) (this : Renderer) :
  on_svg (put (box_label st size label x (baseline_y st qubit - gateHeight st / 2)%float))
    (on_svg (put (stroke (gate_stroke st)
                   (fill (gateFill st)
                      (rect_at (gateWidth st) (gateHeight st) x (baseline_y st qubit)))))
       this) =
  add_elements (labelled_box st size label x (baseline_y st qubit)) this.
Proof.
  rewrite (put_is_add _ this), put_add_elements. reflexivity.
Qed.

Lemma mapi_from_const {A B : Type} (g : A -> B) (l : list A) :
  forall i, mapi_from i (fun _ a => g a) l = map g l.
Proof.
  induction l as [|a l IH]; intros i; simpl; [reflexivity|]. now rewrite IH.
Qed.

Lemma drawRotationGate_adds (gate : IGate) (x : number) (this : Renderer) :
  drawRotationGate gate x this =
  add_elements
    (List.concat
       (map (fun qubit =>
               labelled_box (styles this) (fontSize (styles this) - 2)%float
                            (name gate) x (baseline_y (styles this) qubit))
            (qubits gate)))
    this.
Proof.
  unfold drawRotationGate, forEach.
  rewrite (forEach_from_adds _
             (fun qubit (_ : nat) (_ : StyleConfig) =>
                labelled_box (styles this) (fontSize (styles this) - 2)%float
                             (name gate) x (baseline_y (styles this) qubit))).
  - now rewrite mapi_from_const.
  - intros q i this'. apply box_adds.
Qed.

Lemma draw_single_qubit_gate_adds (gate : IGate) (x : number) (this : Renderer) :
  draw_single_qubit_gate gate x this =
  add_elements
    (List.concat
       (map (fun qubit =>
               labelled_box (styles this) (fontSize (styles this))
                            (name gate) x (baseline_y (styles this) qubit))
            (qubits gate)))
    this.
Proof.
  unfold draw_single_qubit_gate, forEach.
  rewrite (forEach_from_adds _
             (fun qubit (_ : nat) (_ : StyleConfig) =>
                labelled_box (styles this) (fontSize (styles this))
                             (name gate) x (baseline_y (styles this) qubit))).
  - now rewrite mapi_from_const.
  - intros q i this'. apply box_adds.
Qed.

Lemma draw_gate_run (gate : IGate) (x : number) (this : Renderer) :
  draw_gate gate x this = run (dispatch gate) gate x this.
Proof.
  unfold draw_gate, dispatch.
  destruct (name gate =? "CNOT")%string; [reflexivity|].
  destruct (prefix "R" (name gate)); reflexivity.
Qed.

Lemma adds_elements_of (f : Renderer -> Renderer) (F : StyleConfig -> list Element) :
  (forall this, f this = add_elements (F (styles this)) this) ->
  forall this, f this = add_elements (elements_of f (styles this)) this.
Proof.
  intros Hf this. rewrite (elements_of_adds f F Hf). apply Hf.
Qed.

Lemma run_adds (s : Strategy) (gate : IGate) (x : number) (this : Renderer) :
  run s gate x this = add_elements (elements_of (run s gate x) (styles this)) this.
Proof.
  destruct s; simpl.
  - apply (adds_elements_of _
             (fun st => List.concat
                          (map (fun qubit =>
                                  labelled_box st (fontSize st) (name gate) x
                                               (baseline_y st qubit))
                               (qubits gate)))).
    apply draw_single_qubit_gate_adds.
  - apply (adds_elements_of _
             (fun st => List.concat
                          (map (fun qubit =>
                                  labelled_box st (fontSize st - 2)%float (name gate) x
                                               (baseline_y st qubit))
                               (qubits gate)))).
    apply drawRotationGate_adds.
  - apply (adds_elements_of _
             (fun st => control_target_glyph st x
                          (baseline_y st (ToNumber (nth_error (qubits gate) 0)))
                          (baseline_y st (ToNumber (nth_error (qubits gate) 1))))).
    apply drawCNOTGate_adds.
Qed.

Lemma draw_gate_adds (gate : IGate) (x : number) (this : Renderer) :
  draw_gate gate x this =
  add_elements (elements_of (draw_gate gate x) (styles this)) this.
Proof.
  unfold elements_of. rewrite !draw_gate_run. apply run_adds.
Qed.

Lemma concat_singletons {A B : Type} (f : A -> B) (l : list A) :
  List.concat (map (fun a => [f a]) l) = map f l.
Proof.
  induction l as [|a l IH]; simpl; [reflexivity|]. now rewrite IH.
Qed.

(** [draw] sizes the canvas, then adds the qubit lines, then what each gate's
    dispatch draws in the gate's column, in the order of the gate list; it
    touches nothing else. *)
Lemma draw_adds (this : Renderer) :
  draw this =
  add_elements
    (map (baseline this) (seq 0 (Z.to_nat (numQubits (circuit this)))) ++
     List.concat
       (mapi (fun index gate =>
                elements_of (draw_gate gate (gate_x (styles this) index)) (styles this))
             (gates (circuit this))))
    (on_svg (size (Pixels (total_width this + gateSpacing (styles this))%float)
                  (Pixels (qubitSpacing (styles this) *
                           (num_of_Z (numQubits (circuit this)) + 1))%float))
            this).
Proof.
  unfold draw, for_below, forEach; cbv zeta.
  rewrite (for_from_adds _ (fun i (_ : StyleConfig) => [baseline this i]))
    by (intros i this'; apply put_is_add).
  rewrite (forEach_from_adds _
             (fun gate index st =>
                elements_of (draw_gate gate (gate_x (styles this) index)) st))
    by (intros gate index this'; apply draw_gate_adds).
  rewrite add_elements_app, concat_singletons.
  reflexivity.
Qed.

Lemma size_draw (this : Renderer) :
  width (svg (draw this)) =
    Pixels (total_width this + gateSpacing (styles this))%float /\
  height (svg (draw this)) =
    Pixels (qubitSpacing (styles this) * (num_of_Z (numQubits (circuit this)) + 1))%float.
Proof.
  rewrite draw_adds. split; reflexivity.
Qed.

Lemma children_draw (this : Renderer) :
  children (svg (draw this)) =
  children (svg this) ++
  map (baseline this) (seq 0 (Z.to_nat (numQubits (circuit this)))) ++
  List.concat
    (mapi (fun index gate =>
             elements_of (draw_gate gate (gate_x (styles this) index)) (styles this))
          (gates (circuit this))).
Proof.
  rewrite draw_adds. reflexivity.
Qed.

(** The README's example under the default styles, element by element: two
    qubit lines, the Hadamard box and its label in the first column, and the
    five parts of the CNOT glyph in the second. *)
Example README_drawing :
  svg (draw (new_Renderer example_circuit "circuit-container" None)) =
  {| container := "#circuit-container";
     width := Pixels 280;
     height := Pixels 150;
     children :=
       [ stroke {| stroke_width := 2; stroke_color := "#000" |}
                (element (Line 0 50 210 50));
         stroke {| stroke_width := 2; stroke_color := "#000" |}
                (element (Line 0 100 210 100));
         stroke {| stroke_width := 2; stroke_color := "#000" |}
                (fill "#fff" (move 50%float 30%float (element (Rect 40 40))));
         attr [("text-anchor", "middle"); ("dominant-baseline", "middle")]
              (font {| font_size := 14; font_family := "Arial, sans-serif";
                       font_fill := "#000" |}
                    (move 70%float 50%float (element (Text "H"))));
         fill "#000" (move 136%float 46%float (element (Circle 8)));
         stroke {| stroke_width := 2; stroke_color := "#000" |}
                (element (Line 140 50 140 100));
         stroke {| stroke_width := 2; stroke_color := "#000" |}
                (fill "#fff" (move 130%float 90%float (element (Circle 20))));
         stroke {| stroke_width := 2; stroke_color := "#000" |}
                (element (Line 135 100 145 100));
         stroke {| stroke_width := 2; stroke_color := "#000" |}
                (element (Line 140 95 140 105)) ] |}.
Proof.
  reflexivity.
Qed.

(* ================================================================== *)
(** * Canvas size *)
(* ================================================================== *)

(** C1, as stated, fails on the README's example under the default styles:
    two gates and a gate spacing of 70 give a canvas 280 wide, not
    70 * (2 + 1) = 210. *)
Lemma draw_width_is_not_the_line_length :
  let this := new_Renderer example_circuit "circuit-container" None in
  width (svg (draw this)) = Pixels 280 /\
  width (svg (draw this)) <>
    Pixels (gateSpacing (styles this) *
            (num_of_nat (List.length (gates (circuit this))) + 1))%float.
Proof.
  split; [reflexivity|].
  intros H.
  apply (f_equal (fun l => match l with
                           | Pixels n => Prim2SF n
                           | Css _ => S754_nan
                           end)) in H.
  vm_compute in H. discriminate H.
Qed.

(** C1 (amended): for every circuit and every style configuration, [draw]
    resizes the canvas to width [gateSpacing * (gateCount + 1) + gateSpacing],
    one gate spacing more than the length of the qubit lines, and to height
    [qubitSpacing * (numQubits + 1)]. *)
Theorem draw_canvas_size (this : Renderer) :
  width (svg (draw this)) =
    Pixels (gateSpacing (styles this) *
              (num_of_nat (List.length (gates (circuit this))) + 1) +
            gateSpacing (styles this))%float /\
  height (svg (draw this)) =
    Pixels (qubitSpacing (styles this) *
            (num_of_Z (numQubits (circuit this)) + 1))%float.
Proof.
  exact (size_draw this).
Qed.

(* ================================================================== *)
(** * Construction *)
(* ================================================================== *)

(** C2 fails on the code: [CNOTGate] only compares its two indices, so a
    negative control index, which [HadamardGate] and the other single-qubit
    classes refuse, is accepted. *)
Theorem CNOTGate_accepts_negative_index :
  (-1 <? 0)%float = true /\
  new_HadamardGate (-1)%float = Throw "Qubit index must be a non-negative integer." /\
  new_CNOTGate (-1)%float 0%float =
    Ok {| name := "CNOT"; qubits := [(-1)%float; 0%float] |}.
Proof.
  repeat split; reflexivity.
Qed.

(** When each constructor returns: the single-qubit classes unless the index
    is below zero, [RotationGate] unless the index is below zero or the axis
    is not X, Y or Z, and [CNOTGate] unless its two indices are equal. *)
Lemma constructors_succeed_exactly_when :
  (forall qubit,
      is_ok (new_HadamardGate qubit) = negb (qubit <? 0)%float /\
      is_ok (new_PauliXGate qubit) = negb (qubit <? 0)%float /\
      is_ok (new_PauliYGate qubit) = negb (qubit <? 0)%float /\
      is_ok (new_PauliZGate qubit) = negb (qubit <? 0)%float) /\
  (forall axis qubit radians,
      is_ok (new_RotationGate axis qubit radians) =
      (negb (qubit <? 0)%float && includes ["X"; "Y"; "Z"] axis)%bool) /\
  (forall controlQubit targetQubit,
      is_ok (new_CNOTGate controlQubit targetQubit) =
      negb (controlQubit =? targetQubit)%float).
Proof.
  split; [|split].
  - intros qubit.
    unfold new_HadamardGate, new_PauliXGate, new_PauliYGate, new_PauliZGate.
    destruct (qubit <? 0)%float; repeat split.
  - intros axis qubit radians. unfold new_RotationGate.
    destruct (qubit <? 0)%float; [reflexivity|].
    destruct (includes ["X"; "Y"; "Z"] axis); reflexivity.
  - intros c t. unfold new_CNOTGate.
    destruct (c =? t)%float; reflexivity.
Qed.

(** C3, as stated, fails: a circuit with no qubit is constructed. *)
Lemma Circuit_with_zero_qubits_constructs :
  ~ (0 < 0)%Z /\ new_Circuit 0 = Ok {| numQubits := 0; gates := [] |}.
Proof.
  split; [lia | reflexivity].
Qed.

(** C3 (amended): constructing a [Circuit] never fails; whatever [numQubits]
    is, positive or not, the result is a circuit with that [numQubits] and no
    gate. *)
Theorem new_Circuit_never_fails (n : Z) :
  new_Circuit n = Ok {| numQubits := n; gates := [] |}.
Proof.
  reflexivity.
Qed.

(** What the constructor of each class returns when it returns. *)
Lemma built_inv (k : GateKind) (gate : IGate) :
  built k gate ->
  match k with
  | Hadamard => exists qubit, gate = {| name := "H"; qubits := [qubit] |}
  | PauliX => exists qubit, gate = {| name := "X"; qubits := [qubit] |}
  | PauliY => exists qubit, gate = {| name := "Y"; qubits := [qubit] |}
  | PauliZ => exists qubit, gate = {| name := "Z"; qubits := [qubit] |}
  | CNOT => exists controlQubit targetQubit,
      gate = {| name := "CNOT"; qubits := [controlQubit; targetQubit] |}
  | Rotation => exists label qubit,
      gate = {| name := String "R" label; qubits := [qubit] |}
  end.
Proof.
  intros H. destruct H as [q g H|q g H|q g H|q g H|c t g H|axis q a g H].
  - unfold new_HadamardGate in H. destruct (q <? 0)%float; [discriminate|].
    exists q. congruence.
  - unfold new_PauliXGate in H. destruct (q <? 0)%float; [discriminate|].
    exists q. congruence.
  - unfold new_PauliYGate in H. destruct (q <? 0)%float; [discriminate|].
    exists q. congruence.
  - unfold new_PauliZGate in H. destruct (q <? 0)%float; [discriminate|].
    exists q. congruence.
  - unfold new_CNOTGate in H. destruct (c =? t)%float; [discriminate|].
    exists c, t. congruence.
  - unfold new_RotationGate in H.
    destruct (q <? 0)%float; [discriminate|].
    destruct (negb (includes ["X"; "Y"; "Z"] axis)); [discriminate|].
    injection H as <-.
    eexists _, q. reflexivity.
Qed.

Lemma dispatch_R (label : string) (qs : list number) :
  dispatch {| name := String "R" label; qubits := qs |} = RotationBox.
Proof.
  unfold dispatch; simpl. destruct label; reflexivity.
Qed.

(* ================================================================== *)
(** * Dispatch *)
(* ================================================================== *)

Lemma built_dispatch (k : GateKind) (gate : IGate) :
  built k gate -> dispatch gate = strategy_of_kind k.
Proof.
  intros Hb. open_built built_inv Hb k; try reflexivity. apply dispatch_R.
Qed.

(** C9: for every gate built by one of the six constructors, the tests on the
    name in [draw] select the strategy of the gate's class: control-target
    for a [CNOTGate], rotation box for a [RotationGate], single box for
    Hadamard and Pauli X, Y, Z; and [draw] draws the gate by that strategy. *)
Theorem dispatch_matches_class (k : GateKind) (gate : IGate) :
  built k gate ->
  dispatch gate = strategy_of_kind k /\
  forall x this, draw_gate gate x this = run (strategy_of_kind k) gate x this.
Proof.
  intros Hb. split.
  - now apply built_dispatch.
  - intros x this. rewrite draw_gate_run, (built_dispatch k gate Hb). reflexivity.
Qed.

Lemma dispatch_matches_class_witness :
  dispatch {| name := "CNOT"; qubits := [0%float; 1%float] |} = ControlTarget /\
  dispatch {| name := "RY(45.0°)"; qubits := [1%float] |} = RotationBox /\
  dispatch {| name := "H"; qubits := [0%float] |} = SingleBox.
Proof.
  split; [|split].
  - apply (dispatch_matches_class CNOT).
    apply (built_CNOT 0%float 1%float). reflexivity.
  - apply (dispatch_matches_class Rotation
             (as_IGate {| as_IGate := {| name := "RY(45.0°)"; qubits := [1%float] |};
                          angle := (Math_PI / 4)%float |})).
    apply (built_Rotation "Y" 1%float (Math_PI / 4)%float). vm_compute. reflexivity.
  - apply (dispatch_matches_class Hadamard).
    apply (built_Hadamard 0%float). reflexivity.
Defined.

(** C10: a gate built by one of the six constructors has as many qubit
    indices as its class says, two for a [CNOTGate] and one for every other
    class; so for a built gate that takes the CNOT branch, [qubits[0]] and
    [qubits[1]] in [drawCNOTGate] are both defined. *)
Theorem built_gate_arity (k : GateKind) (gate : IGate) :
  built k gate ->
  List.length (qubits gate) = arity k /\
  (dispatch gate = ControlTarget ->
   exists controlQubit targetQubit,
     nth_error (qubits gate) 0 = Some controlQubit /\
     nth_error (qubits gate) 1 = Some targetQubit).
Proof.
  intros Hb.
  pose proof (built_dispatch k gate Hb) as Hd.
  open_built built_inv Hb k;
    (split; [reflexivity|]); rewrite Hd; simpl; try discriminate.
  intros _. eexists _, _. split; reflexivity.
Qed.

Lemma built_gate_arity_witness :
  List.length (qubits {| name := "CNOT"; qubits := [0%float; 1%float] |}) = 2%nat /\
  exists controlQubit targetQubit,
    nth_error [0%float; 1%float] 0 = Some controlQubit /\
    nth_error [0%float; 1%float] 1 = Some targetQubit.
Proof.
  assert (Hb : built CNOT {| name := "CNOT"; qubits := [0%float; 1%float] |}).
  { apply (built_CNOT 0%float 1%float). reflexivity. }
  destruct (built_gate_arity CNOT _ Hb) as [Hlen Hidx].
  split; [exact Hlen|].
  apply Hidx. reflexivity.
Defined.

(* ================================================================== *)
(** * Where the elements of a gate end up *)
(* ================================================================== *)

Lemma nth_error_mapi_from {A B : Type} (f : nat -> A -> B) (l : list A) :
  forall i j, nth_error (mapi_from i f l) j = option_map (f (i + j)%nat) (nth_error l j).
Proof.
  induction l as [|a l IH]; intros i j.
  - destruct j; reflexivity.
  - destruct j as [|j]; simpl.
    + now rewrite Nat.add_0_r.
    + rewrite IH. now rewrite Nat.add_succ_r.
Qed.


(** What a built gate of a single-qubit class draws: one labelled box on the
    line of its qubit, the label two units smaller for a rotation. *)
Lemma single_qubit_gate_elements (k : GateKind) (gate : IGate) (qubit x : number)
      (st : StyleConfig) :
  built k gate -> k <> CNOT -> qubits gate = [qubit] ->
  elements_of (draw_gate gate x) st =
  labelled_box st
    (match k with Rotation => (fontSize st - 2)%float | _ => fontSize st end)
    (name gate) x (baseline_y st qubit).
Proof.
  intros Hb Hk Hq.
  unfold elements_of. rewrite draw_gate_run, (built_dispatch k gate Hb).
  destruct k; try congruence; simpl run.
  1-4: rewrite draw_single_qubit_gate_adds, Hq; reflexivity.
  rewrite drawRotationGate_adds, Hq; reflexivity.
Qed.

(** The elements of the gate at position [index] are among those [draw]
    adds. *)
Lemma gate_elements_drawn (this : Renderer) (index : nat) (gate : IGate) (e : Element) :
  nth_error (gates (circuit this)) index = Some gate ->
  In e (elements_of (draw_gate gate (gate_x (styles this) index)) (styles this)) ->
  In e (children (svg (draw this))).
Proof.
  intros Hg He. rewrite children_draw.
  apply in_or_app; right. apply in_or_app; right.
  apply in_concat. eexists. split; [|exact He].
  apply (nth_error_In _ index). unfold mapi.
  rewrite nth_error_mapi_from, Hg. reflexivity.
Qed.

(* ================================================================== *)
(** * The control-target glyph *)
(* ================================================================== *)

(** C7: for every CNOT gate, with control on the line at [y1] and target on
    the line at [y2], [draw] adds exactly five elements in the gate's column
    [x]: a disc of diameter 8 centred at [(x, y1)] filled in the gate-stroke
    colour; a line from [(x, y1)] to [(x, y2)] in the line colour and width,
    whichever of [y1] and [y2] is larger; a circle of diameter 20 centred at
    [(x, y2)], filled white and stroked in the gate-stroke colour; and the
    two strokes of a plus sign reaching 5 to each side of [(x, y2)].  The
    constants 8, 20 and 5 are the same under every style configuration. *)
Theorem CNOT_glyph (controlQubit targetQubit : number) (gate : IGate)
        (this : Renderer) :
  new_CNOTGate controlQubit targetQubit = Ok gate ->
  let st := styles this in
  let y1 := (qubitSpacing st * (controlQubit + 1))%float in
  let y2 := (qubitSpacing st * (targetQubit + 1))%float in
  let gate_stroke :=
    {| stroke_width := gateStrokeWidth st; stroke_color := gateStroke st |} in
  let glyph (x : number) : list Element :=
    [ fill (gateStroke st) (circle_at 8 x y1);
      stroke {| stroke_width := lineWidth st; stroke_color := lineColor st |}
             (element (Line x y1 x y2));
      stroke gate_stroke (fill "#fff" (circle_at 20 x y2));
      stroke gate_stroke (element (Line (x - 5)%float y2 (x + 5)%float y2));
      stroke gate_stroke (element (Line x (y2 - 5)%float x (y2 + 5)%float)) ] in
  (forall x, draw_gate gate x this = add_elements (glyph x) this) /\
  (forall index,
      nth_error (gates (circuit this)) index = Some gate ->
      nth_error
        (mapi (fun j g =>
                 elements_of (draw_gate g (gateSpacing st * (num_of_nat j + 1))%float) st)
              (gates (circuit this))) index =
        Some (glyph (gateSpacing st * (num_of_nat index + 1))%float) /\
      incl (glyph (gateSpacing st * (num_of_nat index + 1))%float)
           (children (svg (draw this)))).
Proof.
  intros Hnew st y1 y2 gate_stroke glyph.
  unfold new_CNOTGate in Hnew.
  destruct (controlQubit =? targetQubit)%float; [discriminate|].
  injection Hnew as <-.
  assert (Hglyph : forall x this',
             styles this' = st ->
             draw_gate {| name := "CNOT"; qubits := [controlQubit; targetQubit] |} x this' =
             add_elements (glyph x) this').
  { intros x this' Hst. rewrite draw_gate_run.
    change (dispatch {| name := "CNOT"; qubits := [controlQubit; targetQubit] |})
      with ControlTarget.
    simpl run. rewrite drawCNOTGate_adds, Hst. reflexivity. }
  assert (Hel : forall x,
             elements_of
               (draw_gate {| name := "CNOT"; qubits := [controlQubit; targetQubit] |} x) st =
             glyph x).
  { intros x. unfold elements_of. now rewrite Hglyph. }
  split; [intros x; now apply Hglyph|].
  intros index Hg. split.
  - unfold mapi. rewrite nth_error_mapi_from, Hg. simpl. now rewrite Hel.
  - intros e He. apply (gate_elements_drawn this index _ e Hg).
    fold st. unfold gate_x. now rewrite Hel.
Qed.

(** The control below the target: a CNOT from qubit 1 to qubit 0 in the
    second column of the default layout. *)
Lemma CNOT_glyph_witness :
  elements_of (draw_gate {| name := "CNOT"; qubits := [1%float; 0%float] |} 140%float)
              DefaultStyleConfig =
  [ fill "#000" (move 136%float 96%float (element (Circle 8)));
    stroke {| stroke_width := 2; stroke_color := "#000" |}
           (element (Line 140 100 140 50));
    stroke {| stroke_width := 2; stroke_color := "#000" |}
           (fill "#fff" (move 130%float 40%float (element (Circle 20))));
    stroke {| stroke_width := 2; stroke_color := "#000" |}
           (element (Line 135 50 145 50));
    stroke {| stroke_width := 2; stroke_color := "#000" |}
           (element (Line 140 45 140 55)) ].
Proof.
  unfold elements_of.
  destruct (CNOT_glyph 1%float 0%float _ (blank DefaultStyleConfig) eq_refl)
    as [Hglyph _].
  rewrite Hglyph. reflexivity.
Defined.

(* ================================================================== *)
(** * Determinism *)
(* ================================================================== *)

(** C8: [draw] is deterministic.  Two invocations with the same circuit and
    the same style configuration, each on a surface with nothing drawn on it
    yet, make the same calls with the same arguments in the same order: the
    same [size] and the same sequence of elements.  An invocation changes
    neither the circuit nor the styles. *)
Theorem draw_deterministic (this1 this2 : Renderer) :
  circuit this1 = circuit this2 ->
  styles this1 = styles this2 ->
  children (svg this1) = [] ->
  children (svg this2) = [] ->
  (width (svg (draw this1)) = width (svg (draw this2)) /\
   height (svg (draw this1)) = height (svg (draw this2)) /\
   children (svg (draw this1)) = children (svg (draw this2))) /\
  circuit (draw this1) = circuit this1 /\
  styles (draw this1) = styles this1.
Proof.
  intros Hc Hs H1 H2.
  split; [|split; rewrite draw_adds; reflexivity].
  destruct (size_draw this1) as [Hw1 Hh1].
  destruct (size_draw this2) as [Hw2 Hh2].
  rewrite Hw1, Hw2, Hh1, Hh2, !children_draw, H1, H2.
  replace (baseline this1) with (baseline this2)
    by (unfold baseline, total_width; now rewrite Hc, Hs).
  unfold total_width. rewrite Hc, Hs.
  repeat split.
Qed.

Lemma draw_deterministic_witness :
  children (svg (draw (new_Renderer example_circuit "first" None))) =
  children (svg (draw (new_Renderer example_circuit "second" None))).
Proof.
  apply (draw_deterministic (new_Renderer example_circuit "first" None)
                            (new_Renderer example_circuit "second" None));
    reflexivity.
Defined.

(* ================================================================== *)
(** * Rows and columns *)
(* ================================================================== *)

(** C4: for every qubit index [i] in [0, numQubits), [draw] draws the line
    of qubit [i] at height [qubitSpacing * (i + 1)]; and every single-qubit
    gate of the circuit on qubit [i] has its rectangle centred on that
    height: its upper edge is at [qubitSpacing * (i + 1) - gateHeight / 2]
    and its label half a gate height below that edge. *)
Theorem qubit_line_and_gate_row (this : Renderer) (i : nat) :
  (Z.of_nat i < numQubits (circuit this))%Z ->
  let st := styles this in
  let y := (qubitSpacing st * (num_of_nat i + 1))%float in
  let totalWidth :=
    (gateSpacing st * (num_of_nat (List.length (gates (circuit this))) + 1))%float in
  nth_error (children (svg (draw this))) (List.length (children (svg this)) + i) =
    Some (stroke {| stroke_width := lineWidth st; stroke_color := lineColor st |}
                 (element (Line 0 y totalWidth y))) /\
  forall (k : GateKind) (gate : IGate) (index : nat),
    nth_error (gates (circuit this)) index = Some gate ->
    built k gate -> k <> CNOT -> qubits gate = [num_of_nat i] ->
    let x := (gateSpacing st * (num_of_nat index + 1))%float in
    let rectangle :=
      stroke {| stroke_width := gateStrokeWidth st; stroke_color := gateStroke st |}
             (fill (gateFill st)
                   (move (x - gateWidth st / 2)%float (y - gateHeight st / 2)%float
                         (element (Rect (gateWidth st) (gateHeight st))))) in
    let label :=
      attr [("text-anchor", "middle"); ("dominant-baseline", "middle")]
           (font {| font_size := match k with
                                 | Rotation => (fontSize st - 2)%float
                                 | _ => fontSize st
                                 end;
                    font_family := fontFamily st;
                    font_fill := fontColor st |}
                 (move x (y - gateHeight st / 2 + gateHeight st / 2)%float
                       (element (Text (name gate))))) in
    elements_of (draw_gate gate x) st = [rectangle; label] /\
    In rectangle (children (svg (draw this))) /\
    In label (children (svg (draw this))).
Proof.
  intros Hi st y totalWidth. split.
  - rewrite children_draw.
    rewrite nth_error_app2 by lia.
    replace (List.length (children (svg this)) + i - List.length (children (svg this)))%nat
      with i by lia.
    rewrite nth_error_app1 by (rewrite length_map, length_seq; lia).
    rewrite nth_error_map, nth_error_seq.
    replace (i <? Z.to_nat (numQubits (circuit this)))%nat with true
      by (symmetry; apply Nat.ltb_lt; lia).
    reflexivity.
  - intros k gate index Hg Hb Hk Hq x rectangle label.
    assert (He : elements_of (draw_gate gate x) st = [rectangle; label]).
    { rewrite (single_qubit_gate_elements k gate (num_of_nat i) x st Hb Hk Hq).
      reflexivity. }
    split; [exact He|].
    split; apply (gate_elements_drawn this index gate _ Hg);
      fold st; unfold gate_x; fold x; rewrite He; simpl; auto.
Qed.

Lemma qubit_line_and_gate_row_witness :
  let this := new_Renderer example_circuit "circuit-container" None in
  nth_error (children (svg (draw this))) 0 =
    Some (stroke {| stroke_width := 2; stroke_color := "#000" |}
                 (element (Line 0 50 210 50))) /\
  In (stroke {| stroke_width := 2; stroke_color := "#000" |}
             (fill "#fff" (move 50%float 30%float (element (Rect 40 40)))))
     (children (svg (draw this))).
Proof.
  intros this.
  assert (Hi : (Z.of_nat 0 < numQubits (circuit this))%Z) by (vm_compute; reflexivity).
  destruct (qubit_line_and_gate_row this 0%nat Hi) as [Hline Hgate].
  split; [exact Hline|].
  assert (Hb : built Hadamard {| name := "H"; qubits := [0%float] |}).
  { apply (built_Hadamard 0%float). reflexivity. }
  apply (Hgate Hadamard {| name := "H"; qubits := [0%float] |} 0%nat eq_refl Hb).
  - discriminate.
  - reflexivity.
Defined.

(* ================================================================== *)
(** * Small integers are exact *)
(* ================================================================== *)

(** Below [2^53] the integers are binary64 numbers, and [+], [*] and [<] on
    them are those of the integers. *)

Local Open Scope Z_scope.




















Local Close Scope Z_scope.
Local Open Scope float_scope.






Local Close Scope float_scope.


Lemma length_boxes (st : StyleConfig) (size : number) (label : string) (x : number)
      (qs : list number) :
  List.length
    (List.concat (map (fun qubit => labelled_box st size label x (baseline_y st qubit)) qs)) =
  (2 * List.length qs)%nat.
Proof.
  induction qs as [|q qs IH]; simpl; [reflexivity|].
  simpl in IH. rewrite IH. lia.
Qed.

Lemma length_gate_elements (gate : IGate) (x : number) (st : StyleConfig) :
  List.length (elements_of (draw_gate gate x) st) = elements_per_gate gate.
Proof.
  unfold elements_of, elements_per_gate. rewrite draw_gate_run.
  destruct (dispatch gate); simpl run.
  - rewrite draw_single_qubit_gate_adds. simpl. apply length_boxes.
  - rewrite drawRotationGate_adds. simpl. apply length_boxes.
  - rewrite drawCNOTGate_adds. reflexivity.
Qed.








(* ================================================================== *)
(** * Rotation labels *)
(* ================================================================== *)

Lemma all_digits_app (s t : string) :
  all_digits (s ++ t)%string = (all_digits s && all_digits t)%bool.
Proof.
  induction s as [|c s IH]; simpl; [reflexivity|].
  now rewrite IH, andb_assoc.
Qed.

Lemma all_digits_uint (d : Decimal.uint) :
  all_digits (NilEmpty.string_of_uint d) = true.
Proof.
  induction d; simpl; auto.
Qed.

Lemma decimal_digits (n : N) :
  all_digits (decimal n) = true /\ (1 <= String.length (decimal n))%nat.
Proof.
  unfold decimal, NilZero.string_of_uint.
  destruct (N.to_uint n) eqn:E;
    try (split; [exact (all_digits_uint _) | simpl; lia]).
  split; [reflexivity | simpl; lia].
Qed.

Lemma zeroes_digits (k : nat) : all_digits (repeat_string "0" k) = true.
Proof.
  induction k as [|k IH]; simpl; auto.
Qed.

Lemma length_zeroes (k : nat) : String.length (repeat_string "0" k) = k.
Proof.
  induction k as [|k IH]; simpl; auto.
Qed.

Lemma length_append (s t : string) :
  String.length (s ++ t)%string = (String.length s + String.length t)%nat.
Proof.
  induction s as [|c s IH]; simpl; [reflexivity | now rewrite IH].
Qed.

Lemma split_last (t : string) :
  t <> "" -> exists whole d, t = (whole ++ String d "")%string.
Proof.
  induction t as [|c t IH]; [congruence|]. intros _.
  destruct t as [|c' t'].
  - exists "", c. reflexivity.
  - destruct IH as (whole & d & H); [discriminate|].
    exists (String c whole), d. simpl. now rewrite <- H.
Qed.

Lemma substring_whole (whole rest : string) :
  substring 0 (String.length whole) (whole ++ rest) = whole.
Proof.
  induction whole as [|c whole IH]; simpl.
  - destruct rest; reflexivity.
  - now rewrite IH.
Qed.

Lemma substring_rest (whole : string) (d : ascii) :
  substring (String.length whole) 1 (whole ++ String d "") = String d "".
Proof.
  induction whole as [|c whole IH]; simpl; [reflexivity | exact IH].
Qed.

(** A string of at least two characters cut before its last character. *)
Lemma cut_before_last (t : string) :
  (2 <= String.length t)%nat ->
  exists whole d,
    substring 0 (String.length t - 1) t = whole /\
    substring (String.length t - 1) 1 t = String d "" /\
    t = (whole ++ String d "")%string /\ whole <> "".
Proof.
  intros Hlen.
  destruct (split_last t) as (whole & d & H).
  { intros ->. simpl in Hlen. lia. }
  exists whole, d. subst t.
  rewrite length_append in *. simpl String.length in *.
  replace (String.length whole + 1 - 1)%nat with (String.length whole) by lia.
  rewrite substring_whole, substring_rest.
  repeat split. intros ->. simpl in Hlen. lia.
Qed.

Lemma fixed_digits_one_place (n : N) :
  exists whole d,
    fixed_digits n 1 = (whole ++ "." ++ String d "")%string /\
    whole <> "" /\ all_digits whole = true /\ is_digit d = true.
Proof.
  unfold fixed_digits.
  destruct (decimal_digits n) as [Hd Hl].
  set (m := if (String.length (decimal n) <=? 1)%nat
            then (repeat_string "0" (1 + 1 - String.length (decimal n)) ++ decimal n)%string
            else decimal n).
  assert (Hm : all_digits m = true /\ (2 <= String.length m)%nat).
  { unfold m. destruct (String.length (decimal n) <=? 1)%nat eqn:E.
    - apply Nat.leb_le in E. split.
      + now rewrite all_digits_app, zeroes_digits, Hd.
      + rewrite length_append, length_zeroes. lia.
    - apply Nat.leb_gt in E. split; [exact Hd | lia]. }
  destruct Hm as [Hmd Hml].
  destruct (cut_before_last m Hml) as (whole & d & H1 & H2 & H3 & H4).
  exists whole, d. rewrite H1, H2.
  rewrite H3, all_digits_app in Hmd. apply andb_true_iff in Hmd.
  destruct Hmd as [Hw Hdd]. simpl in Hdd. rewrite andb_true_r in Hdd.
  repeat split; assumption.
Qed.

(** In its fixed range, [toFixed(1)] prints one decimal place. *)
Lemma toFixed_one_decimal_place (x : number) :
  fixed_range x = true -> one_decimal_place (Number_toFixed x 1).
Proof.
  unfold fixed_range, Number_toFixed, one_decimal_place.
  destruct (Prim2SF x) as [sg| | |sg m e]; try discriminate.
  - intros _. destruct (fixed_digits_one_place 0) as (whole & d & H & Hr).
    exists "", whole, d. rewrite H. split; [reflexivity|]. split; [now left|exact Hr].
  - intros Hx. apply negb_true_iff in Hx. rewrite Hx. cbv zeta.
    match goal with
    | |- context [fixed_digits ?n 1] =>
        destruct (fixed_digits_one_place n) as (whole & d & H & Hr); rewrite H
    end.
    exists (if sg then "-" else "")%string, whole, d.
    split; [reflexivity|]. split; [destruct sg; auto | exact Hr].
Qed.

Lemma string_app_assoc (a b c : string) :
  ((a ++ b) ++ c)%string = (a ++ (b ++ c))%string.
Proof.
  induction a as [|x a IH]; simpl; [reflexivity | now rewrite IH].
Qed.

Lemma last_two_app (p : string) (a b : ascii) (t : string) :
  last_two (p ++ String a (String b t))%string = last_two (String a (String b t)).
Proof.
  induction p as [|c p IH]; [reflexivity|].
  change (String c p ++ String a (String b t))%string
    with (String c (p ++ String a (String b t))%string).
  destruct p as [|c' p]; [reflexivity|].
  rewrite <- IH.
  change (String c' p ++ String a (String b t))%string
    with (String c' (p ++ String a (String b t))%string).
  destruct p; reflexivity.
Qed.

(** A numeral with one decimal place ends with a point and a digit. *)
Lemma one_decimal_place_end (s : string) :
  one_decimal_place s -> exists d, last_two s = Some ("."%char, d).
Proof.
  intros (sign & whole & d & -> & _). exists d.
  rewrite <- string_app_assoc. apply (last_two_app _ "."%char d EmptyString).
Qed.

Lemma last_two_digits (t : string) (a b : ascii) :
  all_digits t = true -> last_two t = Some (a, b) -> is_digit a = true.
Proof.
  induction t as [|c t IH]; [discriminate|].
  intros Hd H. simpl in Hd. apply andb_true_iff in Hd. destruct Hd as [Hc Ht].
  destruct t as [|c' t]; [discriminate|].
  destruct t as [|c'' t].
  - injection H as <- <-. exact Hc.
  - apply IH; assumption.
Qed.

(** What ends with an exponent does not end with a point and a digit. *)
Lemma exponent_end (p : string) (n : N) (d : ascii) :
  last_two (p ++ "e+" ++ decimal n)%string <> Some ("."%char, d).
Proof.
  destruct (decimal_digits n) as [Hd Hl].
  change ("e+" ++ decimal n)%string with (String "e" (String "+" (decimal n))).
  rewrite last_two_app.
  destruct (decimal n) as [|c t]; [simpl in Hl; lia|].
  destruct t as [|c' t].
  - simpl. discriminate.
  - change (last_two (String "e" (String "+" (String c (String c' t)))))
      with (last_two (String c (String c' t))).
    intros H. apply (last_two_digits _ _ _ Hd) in H. discriminate.
Qed.

Lemma toString_large_end (sign : string) (m : positive) (e : Z) (d : ascii) :
  last_two (sign ++ Number_toString_large m e)%string <> Some ("."%char, d).
Proof.
  unfold Number_toString_large.
  destruct (shortest m e (count_digits 400 (Z.pos m * 2 ^ e) 1) 20 1) as [[s0 n] k].
  set (expo := ("e+" ++ decimal (N.of_nat (n - 1)))%string).
  destruct k as [|[|k]]; rewrite <- !string_app_assoc; apply exponent_end.
Qed.

(** Outside its fixed range [toFixed(1)] prints no decimal place. *)
Lemma toFixed_no_decimal_place (x : number) :
  fixed_range x = false -> ~ one_decimal_place (Number_toFixed x 1).
Proof.
  unfold fixed_range, Number_toFixed.
  intros Hx H. apply one_decimal_place_end in H. destruct H as [d H].
  destruct (Prim2SF x) as [sg|sg| |sg m e]; try discriminate.
  - destruct sg; discriminate.
  - apply negb_false_iff in Hx. rewrite Hx in H.
    revert H. apply toString_large_end.
Qed.

(** C6, as stated, fails: with an angle of [NaN] the label is "RX(NaN°)",
    with no decimal place, and an angle of [2e19] radians, which is more than
    [10^21] degrees, is labelled in exponent form. *)
Lemma RotationGate_label_without_decimal_place :
  new_RotationGate "X" 0%float nan =
    Ok {| as_IGate := {| name := "RX(NaN°)"; qubits := [0%float] |}; angle := nan |} /\
  ~ one_decimal_place (Number_toFixed (nan * (180 / Math_PI))%float 1) /\
  new_RotationGate "X" 0%float 0x1.158e460913dp+64%float =
    Ok {| as_IGate := {| name := "RX(1.1459155902616464e+21°)"; qubits := [0%float] |};
          angle := 0x1.158e460913dp+64%float |} /\
  ~ one_decimal_place
      (Number_toFixed (0x1.158e460913dp+64 * (180 / Math_PI))%float 1).
Proof.
  split; [reflexivity|]. split; [|split; [reflexivity|]].
  - apply toFixed_no_decimal_place. reflexivity.
  - apply toFixed_no_decimal_place. reflexivity.
Qed.

(** C6 (amended): a rotation gate with axis Y and angle pi/4 has the label
    "RY(45.0°)", and one with axis Z and angle pi has "RZ(180.0°)".  In
    general the label is "R", the axis, and between brackets the angle in
    degrees, [angle * (180 / Math.PI)], printed by [toFixed(1)] and followed
    by the degree sign; that numeral has one decimal place exactly when the
    angle in degrees is finite and below [10^21] in magnitude.  The [angle]
    field keeps the angle in radians. *)
Theorem RotationGate_label :
  (forall qubit, (qubit <? 0)%float = false ->
     exists gate, new_RotationGate "Y" qubit (Math_PI / 4)%float = Ok gate /\
                  name gate = "RY(45.0°)" /\ angle gate = (Math_PI / 4)%float) /\
  (forall qubit, (qubit <? 0)%float = false ->
     exists gate, new_RotationGate "Z" qubit Math_PI = Ok gate /\
                  name gate = "RZ(180.0°)" /\ angle gate = Math_PI) /\
  (forall axis qubit radians gate,
     new_RotationGate axis qubit radians = Ok gate ->
     let degrees := Number_toFixed (radians * (180 / Math_PI))%float 1 in
     name gate = ("R" ++ axis ++ "(" ++ degrees ++ "°)")%string /\
     (one_decimal_place degrees <->
      fixed_range (radians * (180 / Math_PI))%float = true) /\
     angle gate = radians /\
     qubits gate = [qubit]).
Proof.
  split; [|split].
  - intros qubit Hq. unfold new_RotationGate. rewrite Hq.
    eexists. split; [reflexivity|]. split; [vm_compute|]; reflexivity.
  - intros qubit Hq. unfold new_RotationGate. rewrite Hq.
    eexists. split; [reflexivity|]. split; [vm_compute|]; reflexivity.
  - intros axis qubit radians gate H degrees. unfold new_RotationGate in H.
    destruct (qubit <? 0)%float; [discriminate|].
    destruct (negb (includes ["X"; "Y"; "Z"] axis)); [discriminate|].
    injection H as <-.
    split; [reflexivity|]. split; [|split; reflexivity].
    split.
    + intros Hone.
      destruct (fixed_range (radians * (180 / Math_PI))%float) eqn:E; [reflexivity|].
      exfalso. exact (toFixed_no_decimal_place _ E Hone).
    + apply toFixed_one_decimal_place.
Qed.

Lemma RotationGate_label_witness :
  (exists gate, new_RotationGate "Y" 1%float (Math_PI / 4)%float = Ok gate /\
                name gate = "RY(45.0°)" /\ angle gate = (Math_PI / 4)%float) /\
  one_decimal_place (Number_toFixed (Math_PI / 2 * (180 / Math_PI))%float 1).
Proof.
  split.
  - apply (proj1 RotationGate_label 1%float). reflexivity.
  - destruct RotationGate_label as [_ [_ Hgen]].
    apply (Hgen "X" 1%float (Math_PI / 2)%float
                {| as_IGate := {| name := "RX(90.0°)"; qubits := [1%float] |};
                   angle := (Math_PI / 2)%float |}).
    + vm_compute. reflexivity.
    + vm_compute. reflexivity.
Defined.

(* ================================================================== *)
(** * Further properties of [draw] *)
(* ================================================================== *)

Lemma skipn_length_app {A : Type} (l1 l2 : list A) :
  skipn (List.length l1) (l1 ++ l2) = l2.
Proof.
  induction l1 as [|a l1 IH]; simpl; [reflexivity | exact IH].
Qed.

Lemma drawing_eq (this : Renderer) :
  drawing this =
  map (baseline this) (seq 0 (Z.to_nat (numQubits (circuit this)))) ++
  List.concat
    (mapi (fun index gate =>
             elements_of (draw_gate gate (gate_x (styles this) index)) (styles this))
          (gates (circuit this))).
Proof.
  unfold drawing. rewrite children_draw. apply skipn_length_app.
Qed.

Lemma drawing_draw (this : Renderer) : drawing (draw this) = drawing this.
Proof.
  rewrite !drawing_eq. rewrite draw_adds. reflexivity.
Qed.

(** X1: [draw] does not clear the surface.  A second call on the same
    renderer leaves the container and the canvas size as the first call set
    them and adds every element once more, after those already there. *)
Theorem draw_twice_draws_twice (this : Renderer) :
  children (svg (draw this)) = children (svg this) ++ drawing this /\
  children (svg (draw (draw this))) =
    children (svg this) ++ drawing this ++ drawing this /\
  width (svg (draw (draw this))) = width (svg (draw this)) /\
  height (svg (draw (draw this))) = height (svg (draw this)) /\
  container (svg (draw (draw this))) = container (svg this).
Proof.
  assert (H1 : children (svg (draw this)) = children (svg this) ++ drawing this).
  { rewrite drawing_eq. apply children_draw. }
  split; [exact H1|]. split.
  - rewrite (children_draw (draw this)), <- drawing_eq, drawing_draw, H1.
    now rewrite app_assoc.
  - destruct (size_draw (draw this)) as [Hw Hh].
    destruct (size_draw this) as [Hw' Hh'].
    rewrite Hw, Hh, Hw', Hh'.
    rewrite !draw_adds. repeat split.
Qed.

Lemma length_concat_mapi (st : StyleConfig) (gs : list IGate) :
  forall i,
    List.length
      (List.concat
         (mapi_from i (fun index gate =>
                         elements_of (draw_gate gate (gate_x st index)) st) gs)) =
    list_sum (map elements_per_gate gs).
Proof.
  induction gs as [|g gs IH]; intros i; simpl; [reflexivity|].
  rewrite length_app, length_gate_elements, IH. reflexivity.
Qed.

(** X2: the number of elements one call of [draw] adds: one line for each
    qubit (none when [numQubits] is not positive), five elements for each
    gate named CNOT and two for each qubit of any other gate.  For a gate
    built by a constructor that is five for a [CNOTGate] and two otherwise. *)
Theorem draw_element_count (this : Renderer) :
  List.length (children (svg (draw this))) =
    (List.length (children (svg this)) +
     Z.to_nat (numQubits (circuit this)) +
     list_sum (map elements_per_gate (gates (circuit this))))%nat /\
  forall k gate, built k gate ->
    elements_per_gate gate = match k with CNOT => 5%nat | _ => 2%nat end.
Proof.
  split.
  - rewrite children_draw, !length_app, length_map, length_seq.
    unfold mapi. rewrite length_concat_mapi. lia.
  - intros k gate Hb. unfold elements_per_gate.
    rewrite (built_dispatch k gate Hb).
    open_built built_inv Hb k; reflexivity.
Qed.

Lemma draw_element_count_witness :
  List.length (children (svg (draw (new_Renderer example_circuit "circuit-container" None)))) =
    9%nat /\
  elements_per_gate {| name := "CNOT"; qubits := [0%float; 1%float] |} = 5%nat.
Proof.
  destruct (draw_element_count (new_Renderer example_circuit "circuit-container" None))
    as [Hcount Hbuilt].
  split; [exact Hcount|].
  apply (Hbuilt CNOT). apply (built_CNOT 0%float 1%float). reflexivity.
Defined.

(** X3: [draw] does not compare qubit indices with the qubit count.  What it
    adds after the qubit lines is the same whatever [numQubits] is: a gate
    on an index at or beyond [numQubits] is drawn like any other. *)
Theorem gates_drawn_whatever_numQubits (n : Z) (this : Renderer) :
  skipn (Z.to_nat n) (drawing (with_numQubits n this)) =
  skipn (Z.to_nat (numQubits (circuit this))) (drawing this).
Proof.
  rewrite !drawing_eq.
  assert (Hskip : forall (f : nat -> Element) (m : nat) (l : list Element),
             skipn m (map f (seq 0 m) ++ l) = l).
  { intros f m l.
    replace m with (List.length (map f (seq 0 m))) at 1
      by (now rewrite length_map, length_seq).
    apply skipn_length_app. }
  rewrite (Hskip (baseline this)).
  unfold with_numQubits at 1. simpl numQubits.
  rewrite (Hskip (baseline (with_numQubits n this))).
  reflexivity.
Qed.

(** X4: with no gate and a qubit count that is not positive there is nothing
    to draw: [draw] sets the canvas size and adds no element. *)
Theorem draw_nothing_to_draw (this : Renderer) :
  gates (circuit this) = [] ->
  (numQubits (circuit this) <= 0)%Z ->
  children (svg (draw this)) = children (svg this) /\
  width (svg (draw this)) =
    Pixels (gateSpacing (styles this) * (0 + 1) + gateSpacing (styles this))%float.
Proof.
  intros Hg Hn. split.
  - rewrite children_draw, Hg.
    replace (Z.to_nat (numQubits (circuit this))) with 0%nat by lia.
    simpl. apply app_nil_r.
  - destruct (size_draw this) as [Hw _]. rewrite Hw.
    unfold total_width. rewrite Hg. reflexivity.
Qed.

Lemma draw_nothing_to_draw_witness :
  children (svg (draw (new_Renderer {| numQubits := -3; gates := [] |} "c" None))) = [].
Proof.
  apply (draw_nothing_to_draw (new_Renderer {| numQubits := -3; gates := [] |} "c" None)).
  - reflexivity.
  - vm_compute. discriminate.
Defined.

(* ================================================================== *)
(** * Further properties of the dispatch and the strategies *)
(* ================================================================== *)

(** X5: [drawRotationGate] repeats the single-qubit branch of [draw] with a
    font two units smaller: for every gate and column it adds what that
    branch adds under the same styles with [fontSize - 2] for [fontSize]. *)
Theorem rotation_box_is_single_box_in_smaller_font
        (gate : IGate) (x : number) (st : StyleConfig) :
  elements_of (drawRotationGate gate x) st =
  elements_of (draw_single_qubit_gate gate x)
              (with_fontSize (fontSize st - 2)%float st).
Proof.
  unfold elements_of.
  rewrite drawRotationGate_adds, draw_single_qubit_gate_adds.
  reflexivity.
Qed.

(** X6: the dispatch reads the name alone, so for gate objects outside the
    six classes: every name that starts with "R" takes the rotation branch;
    and a gate whose name is not "CNOT" and does not start with "R" gets one
    labelled box for each of its qubits, all in its column and each on the
    line of its qubit, with nothing joining them and nothing at all when it
    has no qubit. *)
Theorem name_decides_strategy :
  (forall label qs x this,
      draw_gate {| name := String "R" label; qubits := qs |} x this =
      drawRotationGate {| name := String "R" label; qubits := qs |} x this) /\
  (forall gate x st,
      (name gate =? "CNOT")%string = false ->
      prefix "R" (name gate) = false ->
      elements_of (draw_gate gate x) st =
      List.concat
        (map (fun qubit =>
                [ stroke {| stroke_width := gateStrokeWidth st;
                            stroke_color := gateStroke st |}
                         (fill (gateFill st)
                               (move (x - gateWidth st / 2)%float
                                     (qubitSpacing st * (qubit + 1) - gateHeight st / 2)%float
                                     (element (Rect (gateWidth st) (gateHeight st)))));
                  attr [("text-anchor", "middle"); ("dominant-baseline", "middle")]
                       (font {| font_size := fontSize st;
                                font_family := fontFamily st;
                                font_fill := fontColor st |}
                             (move x
                                   (qubitSpacing st * (qubit + 1) - gateHeight st / 2 +
                                    gateHeight st / 2)%float
                                   (element (Text (name gate))))) ])
             (qubits gate))).
Proof.
  split.
  - intros label qs x this. rewrite draw_gate_run, dispatch_R. reflexivity.
  - intros gate x st Hc Hr. unfold elements_of, draw_gate.
    rewrite Hc, Hr, draw_single_qubit_gate_adds. reflexivity.
Qed.

Lemma name_decides_strategy_witness :
  List.length (elements_of (draw_gate swap_gate 70%float) DefaultStyleConfig) = 4%nat.
Proof.
  rewrite (proj2 name_decides_strategy swap_gate 70%float DefaultStyleConfig
                 eq_refl eq_refl).
  reflexivity.
Defined.

Lemma mul_nan (x : number) : (x * nan)%float = nan.
Proof.
  apply Prim2SF_inj. rewrite mul_spec.
  change (Prim2SF nan) with S754_nan.
  unfold SF64mul, SFmul. destruct (Prim2SF x); reflexivity.
Qed.

(** X7: [drawCNOTGate] reads [qubits[0]] and [qubits[1]] without a check.
    For a gate object named "CNOT" that holds one index only, the target is
    [undefined] and its line is at [NaN]: the control disc is drawn on the
    control's line, the connector ends at [NaN], and the target circle and
    its plus sign are at [NaN].  With no index at all both ends are at
    [NaN]. *)
Theorem CNOT_with_missing_qubits (controlQubit x : number) (st : StyleConfig) :
  elements_of (draw_gate {| name := "CNOT"; qubits := [controlQubit] |} x) st =
    control_target_glyph st x (qubitSpacing st * (controlQubit + 1))%float nan /\
  elements_of (draw_gate {| name := "CNOT"; qubits := [] |} x) st =
    control_target_glyph st x nan nan.
Proof.
  unfold elements_of. rewrite !draw_gate_run.
  change (dispatch {| name := "CNOT"; qubits := [controlQubit] |}) with ControlTarget.
  change (dispatch {| name := "CNOT"; qubits := [] |}) with ControlTarget.
  simpl run. rewrite !drawCNOTGate_adds.
  unfold baseline_y. simpl.
  change (nan + 1)%float with nan.
  rewrite !mul_nan. split; reflexivity.
Qed.

(* ================================================================== *)
(** * Further properties of the constructors *)
(* ================================================================== *)

(** X8: [CNOTGate] refuses the same index for control and target, whatever
    the index, as long as it is a number; [NaN], which [===] does not find
    equal to itself, is accepted for both.  The two zeroes are equal, so
    control 0 with target -0 is refused. *)
Theorem CNOTGate_same_index (qubit : number) :
  is_nan qubit = false ->
  new_CNOTGate qubit qubit = Throw "Control qubit and target qubit must be different." /\
  new_CNOTGate nan nan = Ok {| name := "CNOT"; qubits := [nan; nan] |} /\
  new_CNOTGate 0%float (-0)%float =
    Throw "Control qubit and target qubit must be different.".
Proof.
  intros Hq. unfold is_nan in Hq. apply negb_false_iff in Hq.
  unfold new_CNOTGate. rewrite Hq. repeat split.
Qed.

Lemma CNOTGate_same_index_witness :
  new_CNOTGate 1%float 1%float =
  Throw "Control qubit and target qubit must be different.".
Proof.
  apply (CNOTGate_same_index 1%float). reflexivity.
Defined.

(** X9: [RotationGate] checks the index before the axis.  With an index
    below zero the error is the one about the index, whatever the axis; with
    an index that is not below zero and an axis other than "X", "Y" and "Z"
    (lower case included) it is the one about the axis; otherwise the gate
    is built, whatever the angle. *)
Theorem RotationGate_error_precedence (axis : string) (qubit radians : number) :
  ((qubit <? 0)%float = true ->
   new_RotationGate axis qubit radians =
     Throw "Qubit index must be a non-negative integer.") /\
  ((qubit <? 0)%float = false ->
   axis <> "X" -> axis <> "Y" -> axis <> "Z" ->
   new_RotationGate axis qubit radians = Throw "Axis must be 'X', 'Y', or 'Z'.") /\
  ((qubit <? 0)%float = false ->
   axis = "X" \/ axis = "Y" \/ axis = "Z" ->
   exists gate, new_RotationGate axis qubit radians = Ok gate).
Proof.
  unfold new_RotationGate, includes. simpl existsb.
  split; [|split].
  - intros ->. reflexivity.
  - intros -> HX HY HZ.
    apply String.eqb_neq in HX, HY, HZ. rewrite HX, HY, HZ. reflexivity.
  - intros -> [ -> | [ -> | -> ] ]; eexists; reflexivity.
Qed.

Lemma RotationGate_error_precedence_witness :
  new_RotationGate "x" (-1)%float 0%float =
    Throw "Qubit index must be a non-negative integer." /\
  new_RotationGate "x" 0%float 0%float = Throw "Axis must be 'X', 'Y', or 'Z'.".
Proof.
  split.
  - apply (RotationGate_error_precedence "x" (-1)%float 0%float). reflexivity.
  - apply (RotationGate_error_precedence "x" 0%float 0%float);
      [reflexivity | discriminate | discriminate | discriminate].
Defined.

(** X12: the four single-qubit classes check the sign of the index and
    nothing else.  An index below zero is refused with the same message by
    all four; every other number is accepted and stored as it is, and that
    includes [NaN], a fraction, infinity and the negative zero, although the
    message speaks of an integer. *)
Theorem single_qubit_index_check (qubit : number) :
  ((qubit <? 0)%float = true ->
   new_HadamardGate qubit = Throw "Qubit index must be a non-negative integer." /\
   new_PauliXGate qubit = Throw "Qubit index must be a non-negative integer." /\
   new_PauliYGate qubit = Throw "Qubit index must be a non-negative integer." /\
   new_PauliZGate qubit = Throw "Qubit index must be a non-negative integer.") /\
  ((qubit <? 0)%float = false ->
   new_HadamardGate qubit = Ok {| name := "H"; qubits := [qubit] |} /\
   new_PauliXGate qubit = Ok {| name := "X"; qubits := [qubit] |} /\
   new_PauliYGate qubit = Ok {| name := "Y"; qubits := [qubit] |} /\
   new_PauliZGate qubit = Ok {| name := "Z"; qubits := [qubit] |}) /\
  (nan <? 0)%float = false /\
  (0.5 <? 0)%float = false /\
  (infinity <? 0)%float = false /\
  (-0 <? 0)%float = false.
Proof.
  unfold new_HadamardGate, new_PauliXGate, new_PauliYGate, new_PauliZGate.
  split; [|split].
  - intros ->. repeat split.
  - intros ->. repeat split.
  - repeat split.
Qed.

Lemma single_qubit_index_check_witness :
  new_PauliXGate (-2)%float = Throw "Qubit index must be a non-negative integer." /\
  new_PauliYGate nan = Ok {| name := "Y"; qubits := [nan] |}.
Proof.
  split.
  - apply (single_qubit_index_check (-2)%float). reflexivity.
  - apply (single_qubit_index_check nan). reflexivity.
Defined.

(** X13: [RotationGate] does not check the angle.  With an axis and an index
    it accepts, an angle of [NaN] gives the label "R", the axis and "(NaN°)",
    an infinite angle gives "(Infinity°)" or "(-Infinity°)", and an angle of
    [1e21] radians is labelled in exponent form; the gate is built each
    time and keeps the angle. *)
Theorem RotationGate_unchecked_angle (axis : string) (qubit : number) :
  (qubit <? 0)%float = false ->
  axis = "X" \/ axis = "Y" \/ axis = "Z" ->
  new_RotationGate axis qubit nan =
    Ok {| as_IGate := {| name := ("R" ++ axis ++ "(NaN°)")%string; qubits := [qubit] |};
          angle := nan |} /\
  new_RotationGate axis qubit infinity =
    Ok {| as_IGate := {| name := ("R" ++ axis ++ "(Infinity°)")%string;
                         qubits := [qubit] |};
          angle := infinity |} /\
  new_RotationGate axis qubit neg_infinity =
    Ok {| as_IGate := {| name := ("R" ++ axis ++ "(-Infinity°)")%string;
                         qubits := [qubit] |};
          angle := neg_infinity |} /\
  new_RotationGate axis qubit 0x1.b1ae4d6e2ef5p+69%float =
    Ok {| as_IGate := {| name := ("R" ++ axis ++ "(5.729577951308232e+22°)")%string;
                         qubits := [qubit] |};
          angle := 0x1.b1ae4d6e2ef5p+69%float |}.
Proof.
  intros Hq Haxis. unfold new_RotationGate. rewrite Hq.
  destruct Haxis as [ -> | [ -> | -> ] ]; repeat split.
Qed.

Lemma RotationGate_unchecked_angle_witness :
  new_RotationGate "Z" 0%float nan =
    Ok {| as_IGate := {| name := "RZ(NaN°)"; qubits := [0%float] |}; angle := nan |}.
Proof.
  apply (RotationGate_unchecked_angle "Z" 0%float); [reflexivity | auto].
Defined.

(* ================================================================== *)
(** * Further properties of the circuit and of the styles *)
(* ================================================================== *)

(** X10: [addGate] called on each gate of a list in turn leaves the qubit
    count as it was and the gates that were there in their places, followed
    by the gates of the list in the order of the calls; it refuses no gate,
    whatever its qubits. *)
Theorem addGates_appends (this : Circuit) (gs : list IGate) :
  gates (addGates this gs) = gates this ++ gs /\
  numQubits (addGates this gs) = numQubits this.
Proof.
  unfold addGates. revert this.
  induction gs as [|g gs IH]; intros this; simpl.
  - now rewrite app_nil_r.
  - destruct (IH (addGate this g)) as [Hg Hn]. rewrite Hg, Hn. simpl.
    now rewrite <- app_assoc.
Qed.

(** X11: the styles of a renderer.  Without a [styles] argument, or with one
    that sets nothing, they are the defaults; spreading the same overrides
    again changes nothing; and of two partial configurations spread one
    after the other, the later one wins wherever it sets a value. *)
Theorem spread_laws :
  (forall c id, styles (new_Renderer c id None) = DefaultStyleConfig) /\
  (forall c id, styles (new_Renderer c id (Some no_overrides)) = DefaultStyleConfig) /\
  (forall base o, spread (spread base o) o = spread base o) /\
  (forall base o1 o2 size,
      fontSize' o2 = Some size -> fontSize (spread (spread base o1) o2) = size) /\
  (forall base o1 o2,
      fontSize' o2 = None ->
      fontSize (spread (spread base o1) o2) = fontSize (spread base o1)).
Proof.
  split; [reflexivity|]. split; [reflexivity|]. split; [|split].
  - intros base o.
    destruct o as [[?|] [?|] [?|] [?|] [?|] [?|] [?|] [?|] [?|] [?|] [?|] [?|]];
      reflexivity.
  - intros base o1 o2 size H. simpl. now rewrite H.
  - intros base o1 o2 H. simpl. now rewrite H.
Qed.

Lemma spread_laws_witness :
  fontSize (styles (new_Renderer example_circuit "c"
                      (Some (Build_PartialStyleConfig None None None None None None
                               None None None (Some 16%float) None None)))) = 16%float.
Proof.
  destruct spread_laws as [_ [_ [_ [Hset _]]]].
  apply (Hset DefaultStyleConfig no_overrides). reflexivity.
Defined.
